(** * The 2026 career locker: [Random Projects/goal.py]

    The script prompts for one line of text, writes it to [my_goal.txt],
    reads the file back and prints what it read between two rules of
    hyphens.  Everything it does is a call to a Python builtin, so this
    development has two layers:

    - a model of the part of the Python runtime the script touches
      ([print], [input], [open], [write], [read], the [with] statement),
      following the behaviour the Python library reference documents for
      these builtins;
    - the script itself, [main], statement by statement.

    The world the script runs in is explicit: the bytes waiting on standard
    input, the text sent to standard output, the files of the working
    directory, the table of open file objects, a script of the errors the
    operating system is going to report, and a ghost log of the calls made.

    What is assumed of the platform:

    - it is a POSIX system: [os.linesep] is LF, and a line of standard
      input ends at the first LF;
    - the locale encoding is UTF-8, and both standard input and the files
      the script opens use the strict error handler;
    - a file opened without a [newline] argument translates newlines:
      LF to [os.linesep] when writing, and CR LF and CR to LF when reading
      (universal newlines mode);
    - standard input is read a line at a time, as from a terminal.  From
      a file or a pipe the runtime reads ahead and decodes what it read,
      so that bytes that are not UTF-8 after the first line can make
      [input] raise as well: the statements that conclude that a run gets
      past [input] are about inputs that are UTF-8 from their first byte
      to their last ([utf8_input]), for which reading ahead changes
      nothing;
    - standard output accepts whatever is printed;
    - no other process touches the working directory during a run. *)

From Stdlib Require Import NArith ZArith Lia List.
From Stdlib.Strings Require Import Byte.
From stdpp Require Import gmap strings list.

(** ** Text and bytes *)

(** A Python [str] is a sequence of code points; a [bytes] object and the
    content of a file are sequences of octets. *)
Abbreviation str := (list N).
Abbreviation bytes := (list byte).

Definition LF : N := 10.
Definition CR : N := 13.

(** A string literal of the script whose characters are all ASCII. *)
Definition py (s : string) : str :=
  map Ascii.N_of_ascii (String.list_ascii_of_string s).

(** [s * n] on strings. *)
Definition str_mul (s : str) (n : nat) : str := concat (replicate n s).

Section Codec.
Local Open Scope N_scope.

Definition byte_of (n : N) : byte := default x00 (Byte.of_N n).

Definition is_surrogate (c : N) : bool := (0xD800 <=? c) && (c <=? 0xDFFF).

Definition is_cont (n : N) : bool := (0x80 <=? n) && (n <? 0xC0).

(** The UTF-8 form of one code point (RFC 3629).  The strict codec refuses
    surrogates, and nothing above U+10FFFF is a code point. *)
Definition utf8_encode_char (c : N) : option bytes :=
  if c <? 0x80 then Some [byte_of c]
  else if c <? 0x800 then
    Some [byte_of (0xC0 + c / 64); byte_of (0x80 + c mod 64)]
  else if c <? 0x10000 then
    if is_surrogate c then None
    else Some [byte_of (0xE0 + c / 4096);
               byte_of (0x80 + (c / 64) mod 64);
               byte_of (0x80 + c mod 64)]
  else if c <? 0x110000 then
    Some [byte_of (0xF0 + c / 262144);
          byte_of (0x80 + (c / 4096) mod 64);
          byte_of (0x80 + (c / 64) mod 64);
          byte_of (0x80 + c mod 64)]
  else None.

(** [s.encode("utf-8")]: [None] stands for [UnicodeEncodeError]. *)
Fixpoint utf8_encode (s : str) : option bytes :=
  match s with
  | [] => Some []
  | c :: t =>
    match utf8_encode_char c, utf8_encode t with
    | Some b, Some bt => Some (b ++ bt)
    | _, _ => None
    end
  end.

(** [b.decode("utf-8")]: [None] stands for [UnicodeDecodeError].  The
    strict decoder refuses stray continuation bytes, truncated
    sequences, overlong forms, surrogates and values above U+10FFFF. *)
Fixpoint utf8_decode (bs : bytes) : option str :=
  match bs with
  | [] => Some []
  | b1 :: r1 =>
    let n1 := Byte.to_N b1 in
    if n1 <? 0x80 then cons n1 <$> utf8_decode r1
    else if n1 <? 0xC2 then None
    else if n1 <? 0xE0 then
      match r1 with
      | b2 :: r2 =>
        let n2 := Byte.to_N b2 in
        if is_cont n2
        then cons ((n1 - 0xC0) * 64 + (n2 - 0x80)) <$> utf8_decode r2
        else None
      | _ => None
      end
    else if n1 <? 0xF0 then
      match r1 with
      | b2 :: b3 :: r3 =>
        let n2 := Byte.to_N b2 in
        let n3 := Byte.to_N b3 in
        let c := (n1 - 0xE0) * 4096 + (n2 - 0x80) * 64 + (n3 - 0x80) in
        if is_cont n2 && is_cont n3 && (0x800 <=? c) && negb (is_surrogate c)
        then cons c <$> utf8_decode r3
        else None
      | _ => None
      end
    else if n1 <? 0xF5 then
      match r1 with
      | b2 :: b3 :: b4 :: r4 =>
        let n2 := Byte.to_N b2 in
        let n3 := Byte.to_N b3 in
        let n4 := Byte.to_N b4 in
        let c := (n1 - 0xF0) * 262144 + (n2 - 0x80) * 4096
                 + (n3 - 0x80) * 64 + (n4 - 0x80) in
        if is_cont n2 && is_cont n3 && is_cont n4
           && (0x10000 <=? c) && (c <? 0x110000)
        then cons c <$> utf8_decode r4
        else None
      | _ => None
      end
    else None
  end.

(** [os.linesep] on POSIX. *)
Definition os_linesep : str := [LF].

(** What a text file opened with the default [newline=None] does to the
    characters it is asked to write: every LF becomes [os.linesep]. *)
Definition translate_out (s : str) : str :=
  flat_map (fun c => if c =? LF then os_linesep else [c]) s.

(** What it does to the characters it reads (universal newlines): CR LF
    and a lone CR both come back as LF. *)
Fixpoint universal_newlines (s : str) : str :=
  match s with
  | [] => []
  | c :: t =>
    if c =? CR then
      LF :: match t with
            | c' :: t' =>
              if c' =? LF then universal_newlines t' else universal_newlines t
            | [] => []
            end
    else c :: universal_newlines t
  end.

(** One line of a byte stream: the bytes up to and including the first
    LF (all of them when there is none), and what follows. *)
Fixpoint readline (bs : bytes) : bytes * bytes :=
  match bs with
  | [] => ([], [])
  | b :: r =>
    if Byte.to_N b =? LF then ([b], r)
    else let '(l, r') := readline r in (b :: l, r')
  end.

(** Dropping the LF a line ends with, if it ends with one. *)
Fixpoint strip_newline (s : str) : str :=
  match s with
  | [] => []
  | c :: t =>
    match t with
    | [] => if c =? LF then [] else [c]
    | _ :: _ => c :: strip_newline t
    end
  end.
End Codec.

(** ** The runtime *)

(** The exceptions the builtins used here can raise.  [OSError] carries the
    [errno] the operating system reported. *)
Inductive exn :=
| EOFError
| UnicodeDecodeError
| UnicodeEncodeError
| FileNotFoundError
| OSError (errno : N)
| UnsupportedOperation
| ValueError.

Inductive result (A : Type) :=
| Ok (a : A)
| Raise (e : exn).
Arguments Ok {A} a.
Arguments Raise {A} e.

(** The two modes the script opens a file in: ["r"] and ["w"]. *)
Inductive mode := ModeR | ModeW.

(** An open text file: the path it was opened on, its mode and its
    position in the file, in bytes. *)
Record handle := Handle { h_path : string; h_mode : mode; h_pos : nat }.

(** The calls of the script that reach the outside, with what they
    returned.  The log is ghost state: no builtin reads it. *)
Inductive event :=
| EvPrint (s : str)
| EvInput (prompt : str) (r : result str)
| EvOpen (path : string) (m : mode) (r : result nat)
| EvWrite (h : nat) (s : str) (r : result nat)
| EvRead (h : nat) (r : result str)
| EvClose (h : nat).

(** [faults] scripts the operating system: each [open], [write] and [read]
    takes the next entry, and fails with that [errno] when it is [Some].
    An exhausted script means no more failures. *)
Record world := World {
  stdin : bytes;
  stdout : str;
  fs : gmap string bytes;
  faults : list (option N);
  fds : gmap nat handle;
  log : list event
}.

Definition set_stdin (v : bytes) (w : world) : world :=
  World v (stdout w) (fs w) (faults w) (fds w) (log w).
Definition set_stdout (v : str) (w : world) : world :=
  World (stdin w) v (fs w) (faults w) (fds w) (log w).
Definition set_fs (v : gmap string bytes) (w : world) : world :=
  World (stdin w) (stdout w) v (faults w) (fds w) (log w).
Definition set_faults (v : list (option N)) (w : world) : world :=
  World (stdin w) (stdout w) (fs w) v (fds w) (log w).
Definition set_fds (v : gmap nat handle) (w : world) : world :=
  World (stdin w) (stdout w) (fs w) (faults w) v (log w).
Definition set_log (v : list event) (w : world) : world :=
  World (stdin w) (stdout w) (fs w) (faults w) (fds w) v.

(** A statement: it runs in a world, and either returns a value or raises,
    leaving a new world. *)
Definition M (A : Type) : Type := world -> result A * world.

Definition ret {A} (a : A) : M A := fun w => (Ok a, w).

Definition raise {A} (e : exn) : M A := fun w => (Raise e, w).

(** Sequencing: an exception raised by the first statement is not caught,
    the second one does not run. *)
Definition bind {A B} (m : M A) (k : A -> M B) : M B :=
  fun w =>
    match m w with
    | (Ok a, w') => k a w'
    | (Raise e, w') => (Raise e, w')
    end.

Notation "x <- m ;; k" := (bind m (fun x => k))
  (at level 100, m at next level, right associativity).
Notation "m ;; k" := (bind m (fun _ => k))
  (at level 100, right associativity).

(** Running a call and recording it with its outcome. *)
Definition logged {A} (ev : result A -> event) (m : M A) : M A :=
  fun w =>
    let '(r, w') := m w in
    (r, set_log (log w' ++ [ev r]) w').

(** The next answer of the operating system. *)
Definition next_fault (l : list (option N)) : option N :=
  match l with
  | Some errno :: _ => Some errno
  | _ => None
  end.

(** [print(s)]: the text, then a newline, on standard output. *)
Definition print (s : str) : M unit :=
  logged (fun _ => EvPrint s)
    (fun w => (Ok tt, set_stdout (stdout w ++ s ++ [LF]) w)).

(** [input(prompt)]: the prompt goes to standard output without a newline;
    one line is read from standard input, converted to a string, and
    returned without its trailing newline.  Reading nothing at all is
    [EOFError]; bytes that are not UTF-8 are [UnicodeDecodeError].  The
    line is taken and decoded by itself, which is what happens at a
    terminal; see the head of the file for input read in blocks. *)
Definition input (prompt : str) : M str :=
  logged (EvInput prompt)
    (fun w =>
       let w1 := set_stdout (stdout w ++ prompt) w in
       match stdin w with
       | [] => (Raise EOFError, w1)
       | _ :: _ =>
         let '(line, rest) := readline (stdin w) in
         let w2 := set_stdin rest w1 in
         match utf8_decode line with
         | None => (Raise UnicodeDecodeError, w2)
         | Some s => (Ok (strip_newline s), w2)
         end
       end).

(** [open(path, mode)].  Mode ["w"] creates the file or truncates it to
    nothing; mode ["r"] needs the file to exist.  The file object is
    entered in the table of open files under a fresh key, positioned at
    the start of the file. *)
Definition open (path : string) (m : mode) : M nat :=
  logged (EvOpen path m)
    (fun w =>
       let w1 := set_faults (tail (faults w)) w in
       match next_fault (faults w) with
       | Some errno => (Raise (OSError errno), w1)
       | None =>
         let h := fresh (dom (fds w)) in
         let w2 := set_fds (<[h := Handle path m 0]> (fds w)) w1 in
         match m with
         | ModeW => (Ok h, set_fs (<[path := []]> (fs w)) w2)
         | ModeR =>
           match fs w !! path with
           | Some _ => (Ok h, w2)
           | None => (Raise FileNotFoundError, w1)
           end
         end
       end).

(** [file.write(s)]: the text is translated, encoded and put in the file
    at the position of the file object; the call returns the number of
    characters of [s].  An error of the device is raised by the call
    itself; a buffering runtime raises it a moment later, when the buffer
    is flushed as the [with] block is left, with the same outcome for the
    run: the same exception, the file closed, the same content on disk. *)
Definition write (h : nat) (s : str) : M nat :=
  logged (EvWrite h s)
    (fun w =>
       match fds w !! h with
       | None => (Raise ValueError, w)
       | Some (Handle path ModeR pos) => (Raise UnsupportedOperation, w)
       | Some (Handle path ModeW pos) =>
         match utf8_encode (translate_out s) with
         | None => (Raise UnicodeEncodeError, w)
         | Some bs =>
           let w1 := set_faults (tail (faults w)) w in
           match next_fault (faults w) with
           | Some errno => (Raise (OSError errno), w1)
           | None =>
             let old := default [] (fs w !! path) in
             let new := take pos old ++ bs ++ drop (pos + length bs) old in
             (Ok (length s),
              set_fs (<[path := new]> (fs w))
                (set_fds (<[h := Handle path ModeW (pos + length bs)]> (fds w))
                   w1))
           end
         end
       end).

(** [file.read()]: everything from the position of the file object to the
    end of the file, decoded, with the newlines translated as [open]
    documents for its default [newline=None]. *)
Definition read (h : nat) : M str :=
  logged (EvRead h)
    (fun w =>
       match fds w !! h with
       | None => (Raise ValueError, w)
       | Some (Handle path ModeW pos) => (Raise UnsupportedOperation, w)
       | Some (Handle path ModeR pos) =>
         let w1 := set_faults (tail (faults w)) w in
         match next_fault (faults w) with
         | Some errno => (Raise (OSError errno), w1)
         | None =>
           let data := default [] (fs w !! path) in
           match utf8_decode (drop pos data) with
           | None => (Raise UnicodeDecodeError, w1)
           | Some s =>
             (Ok (universal_newlines s),
              set_fds (<[h := Handle path ModeR (length data)]> (fds w)) w1)
           end
         end
       end).

(** [file.close()], which is what leaving a [with] block calls. *)
Definition close (h : nat) : M unit :=
  logged (fun _ => EvClose h)
    (fun w => (Ok tt, set_fds (delete h (fds w)) w)).

(** [with open(path, mode) as file: body].  When [open] raises there is
    nothing to release.  Otherwise the body runs, the file is closed
    whether the body returned or raised, and the outcome of the body is
    the outcome of the statement. *)
Definition with_open {A} (path : string) (m : mode) (body : nat -> M A) : M A :=
  fun w =>
    match open path m w with
    | (Raise e, w1) => (Raise e, w1)
    | (Ok file, w1) =>
      let '(r, w2) := body file w1 in
      let '(_, w3) := close file w2 in
      (r, w3)
    end.

(** ** The script *)

Definition filename : string := "my_goal.txt".

Definition header : str := py "--- 2026 CAREER LOCKER ---".
Definition prompt : str := py "What is your ultimate goal for 2026? > ".
Definition notice : str := LF :: py "...Saving to disk...".
(** The confirmation line starts with U+2705, the white heavy check mark. *)
Definition confirmed : str := 9989%N :: py " CONFIRMED. Saved Goal: ".

Definition main : M unit :=
  print header ;;
  my_goal <- input prompt ;;
  with_open filename ModeW (fun file => write file my_goal) ;;
  print notice ;;
  print (str_mul (py "-") 30) ;;
  with_open filename ModeR (fun file =>
    saved_content <- read file ;;
    print (confirmed ++ saved_content) ;;
    print (str_mul (py "-") 30)).


(** ** Vocabulary of the statements *)

(** The separator the script prints twice. *)
Definition rule : str := str_mul (py "-") 30.

(** The line [input] is going to take from standard input, and what it
    leaves there. *)
Definition first_line (w : world) : bytes := (readline (stdin w)).1.
Definition after_line (w : world) : bytes := (readline (stdin w)).2.

(** [typed w S]: in world [w] there is a line to read, and [S] is the
    string [input] makes of it. *)
Definition typed (w : world) (S : str) : Prop :=
  stdin w <> [] /\ strip_newline <$> utf8_decode (first_line w) = Some S.

(** Standard input is UTF-8 from its first byte to its last. *)
Definition utf8_input (w : world) : Prop :=
  exists t, utf8_decode (stdin w) = Some t.

(** The key under which the next file object is entered. *)
Definition next_file (w : world) : nat := fresh (dom (fds w)).

(** What the script has sent to standard output once the prompt is out,
    once the separator that follows the notice is out, and at the end of a
    run that confirmed [content]. *)
Definition out_prompt : str := header ++ [LF] ++ prompt.
Definition out_saving : str := out_prompt ++ notice ++ [LF] ++ rule ++ [LF].
Definition out_done (content : str) : str :=
  out_saving ++ (confirmed ++ content) ++ [LF] ++ rule ++ [LF].

(** The calls of the four phases of the script. *)
Definition calls_prompt (r : result str) : list event :=
  [EvPrint header; EvInput prompt r].
Definition calls_persist (h : nat) (S : str) (r : result nat) : list event :=
  [EvOpen filename ModeW (Ok h); EvWrite h S r; EvClose h].
Definition calls_saving : list event := [EvPrint notice; EvPrint rule].
Definition calls_verify (h : nat) (content : str) : list event :=
  [EvOpen filename ModeR (Ok h); EvRead h (Ok content);
   EvPrint (confirmed ++ content); EvPrint rule; EvClose h].

(** The runs of the script.  It is a straight line from the prompt to the
    report: each constructor is the run that stops at one of the calls
    that can fail, and the last one is the run that reaches the end.  In
    every run but the first two, [S] is the goal typed and, from the write
    on, [bs] is its encoding. *)
Inductive main_run (w : world) : result unit -> world -> Prop :=
| Run_eof :
    stdin w = [] ->
    main_run w (Raise EOFError)
      (World [] (stdout w ++ out_prompt) (fs w) (faults w) (fds w)
         (log w ++ calls_prompt (Raise EOFError)))
| Run_undecodable :
    stdin w <> [] ->
    utf8_decode (first_line w) = None ->
    main_run w (Raise UnicodeDecodeError)
      (World (after_line w) (stdout w ++ out_prompt) (fs w) (faults w) (fds w)
         (log w ++ calls_prompt (Raise UnicodeDecodeError)))
| Run_open_w_fails S errno :
    typed w S ->
    next_fault (faults w) = Some errno ->
    main_run w (Raise (OSError errno))
      (World (after_line w) (stdout w ++ out_prompt) (fs w)
         (tail (faults w)) (fds w)
         (log w ++ calls_prompt (Ok S)
            ++ [EvOpen filename ModeW (Raise (OSError errno))]))
| Run_write_fails S errno :
    typed w S ->
    next_fault (faults w) = None ->
    next_fault (tail (faults w)) = Some errno ->
    main_run w (Raise (OSError errno))
      (World (after_line w) (stdout w ++ out_prompt)
         (<[filename := []]> (fs w))
         (tail (tail (faults w))) (fds w)
         (log w ++ calls_prompt (Ok S)
            ++ calls_persist (next_file w) S (Raise (OSError errno))))
| Run_open_r_fails S bs errno :
    typed w S ->
    utf8_encode S = Some bs ->
    next_fault (faults w) = None ->
    next_fault (tail (faults w)) = None ->
    next_fault (tail (tail (faults w))) = Some errno ->
    main_run w (Raise (OSError errno))
      (World (after_line w) (stdout w ++ out_saving)
         (<[filename := bs]> (fs w))
         (tail (tail (tail (faults w)))) (fds w)
         (log w ++ calls_prompt (Ok S)
            ++ calls_persist (next_file w) S (Ok (length S))
            ++ calls_saving
            ++ [EvOpen filename ModeR (Raise (OSError errno))]))
| Run_read_fails S bs errno :
    typed w S ->
    utf8_encode S = Some bs ->
    next_fault (faults w) = None ->
    next_fault (tail (faults w)) = None ->
    next_fault (tail (tail (faults w))) = None ->
    next_fault (tail (tail (tail (faults w)))) = Some errno ->
    main_run w (Raise (OSError errno))
      (World (after_line w) (stdout w ++ out_saving)
         (<[filename := bs]> (fs w))
         (tail (tail (tail (tail (faults w))))) (fds w)
         (log w ++ calls_prompt (Ok S)
            ++ calls_persist (next_file w) S (Ok (length S))
            ++ calls_saving
            ++ [EvOpen filename ModeR (Ok (next_file w));
                EvRead (next_file w) (Raise (OSError errno));
                EvClose (next_file w)]))
| Run_done S bs :
    typed w S ->
    utf8_encode S = Some bs ->
    next_fault (faults w) = None ->
    next_fault (tail (faults w)) = None ->
    next_fault (tail (tail (faults w))) = None ->
    next_fault (tail (tail (tail (faults w)))) = None ->
    main_run w (Ok tt)
      (World (after_line w) (stdout w ++ out_done (universal_newlines S))
         (<[filename := bs]> (fs w))
         (tail (tail (tail (tail (faults w))))) (fds w)
         (log w ++ calls_prompt (Ok S)
            ++ calls_persist (next_file w) S (Ok (length S))
            ++ calls_saving
            ++ calls_verify (next_file w) (universal_newlines S))).

(** The exception a call ended with, if it raised. *)
Definition raised {A} (r : result A) : option exn :=
  match r with
  | Raise e => Some e
  | Ok _ => None
  end.

Definition failure (ev : event) : option exn :=
  match ev with
  | EvInput _ r => raised r
  | EvOpen _ _ r => raised r
  | EvWrite _ _ r => raised r
  | EvRead _ r => raised r
  | EvPrint _ | EvClose _ => None
  end.

(** The answers of the operating system to the four calls the script can
    make on the file: two [open], one [write], one [read]. *)
Definition responses (w : world) : list (option N) :=
  [next_fault (faults w);
   next_fault (tail (faults w));
   next_fault (tail (tail (faults w)));
   next_fault (tail (tail (tail (faults w))))].

(** A world in which the operating system reports no error to them. *)
Definition quiet (w : world) : Prop := responses w = [None; None; None; None].

(** ** Sample worlds *)

(** Nothing typed, no file, no error to come. *)
Definition blank : world := World [] [] ∅ [] ∅ [].

Definition typing (s : string) (w : world) : world :=
  set_stdin (String.list_byte_of_string s ++ [x0a]) w.

(** The line [a CR b]. *)
Definition cr_world : world :=
  set_stdin [byte_of 97; byte_of 13; byte_of 98; x0a] blank.

(** The line [Ship v2], in a directory where [my_goal.txt] already holds
    an older and longer goal. *)
Definition ship_world : world :=
  typing "Ship v2"
    (set_fs (<[filename := String.list_byte_of_string "Learn to type faster"]> ∅)
       blank).

(** The line made of the single character U+2705, in its UTF-8 form. *)
Definition check_world : world :=
  set_stdin [byte_of 226; byte_of 156; byte_of 133; x0a] blank.


(** Standard input at its end. *)
Definition eof_world : world := blank.

(** The directory cannot be written to: [open] fails with [EACCES]. *)
Definition readonly_world : world := set_faults [Some 13%N] ship_world.

(** The device is full: [write] fails with [ENOSPC]. *)
Definition full_world : world := set_faults [None; Some 28%N] ship_world.

(** The file cannot be read back: the second [open] fails with [EACCES]. *)
Definition unreadable_world : world :=
  set_faults [None; None; Some 13%N] ship_world.

(** Reading fails with [EIO]. *)
Definition broken_world : world :=
  set_faults [None; None; None; Some 5%N] ship_world.

(** * Properties *)

(** ** The codec *)

Ltac nlia := zify; Z.to_euclidean_division_equations; lia.

Section CodecFacts.
Local Open Scope N_scope.

Lemma to_N_byte_of n : n < 256 -> Byte.to_N (byte_of n) = n.
Proof.
  intros Hn. unfold byte_of. destruct (Byte.of_N n) as [b|] eqn:E; simpl.
  - by apply Byte.to_of_N.
  - apply Byte.of_N_None_iff in E. lia.
Qed.

Lemma byte_of_to_N b : byte_of (Byte.to_N b) = b.
Proof. unfold byte_of. by rewrite Byte.of_to_N. Qed.

Lemma to_N_lt b : Byte.to_N b < 256.
Proof. pose proof (Byte.to_N_bounded b). lia. Qed.

(** Decoding undoes the encoding of one code point, whatever follows. *)
Lemma utf8_decode_encode_char c bs r :
  utf8_encode_char c = Some bs ->
  utf8_decode (bs ++ r) = cons c <$> utf8_decode r.
Proof.
  unfold utf8_encode_char.
  destruct (N.ltb_spec c 0x80) as [H1|H1].
  { intros [= <-]. simpl. rewrite to_N_byte_of by lia.
    destruct (N.ltb_spec c 0x80); [done | lia]. }
  destruct (N.ltb_spec c 0x800) as [H2|H2].
  { intros [= <-]. cbn [app utf8_decode].
    rewrite !to_N_byte_of by nlia.
    destruct (N.ltb_spec (0xC0 + c / 64) 0x80); [nlia|].
    destruct (N.ltb_spec (0xC0 + c / 64) 0xC2); [nlia|].
    destruct (N.ltb_spec (0xC0 + c / 64) 0xE0); [|nlia].
    unfold is_cont.
    destruct (N.leb_spec 0x80 (0x80 + c mod 64)); [|nlia].
    destruct (N.ltb_spec (0x80 + c mod 64) 0xC0); [|nlia].
    simpl andb. cbv iota. do 2 f_equal. nlia. }
  destruct (N.ltb_spec c 0x10000) as [H3|H3].
  { unfold is_surrogate at 1.
    destruct (N.leb_spec 0xD800 c) as [H4|H4];
      destruct (N.leb_spec c 0xDFFF) as [H5|H5]; simpl andb; cbv iota;
        try discriminate; intros [= <-]; cbn [app utf8_decode];
          rewrite !to_N_byte_of by nlia.
    all: destruct (N.ltb_spec (0xE0 + c / 4096) 0x80); [nlia|].
    all: destruct (N.ltb_spec (0xE0 + c / 4096) 0xC2); [nlia|].
    all: destruct (N.ltb_spec (0xE0 + c / 4096) 0xE0); [nlia|].
    all: destruct (N.ltb_spec (0xE0 + c / 4096) 0xF0); [|nlia].
    all: replace ((0xE0 + c / 4096 - 0xE0) * 4096
                  + (0x80 + (c / 64) mod 64 - 0x80) * 64
                  + (0x80 + c mod 64 - 0x80)) with c by nlia.
    all: unfold is_cont, is_surrogate.
    all: destruct (N.leb_spec 0x80 (0x80 + (c / 64) mod 64)); [|nlia].
    all: destruct (N.ltb_spec (0x80 + (c / 64) mod 64) 0xC0); [|nlia].
    all: destruct (N.leb_spec 0x80 (0x80 + c mod 64)); [|nlia].
    all: destruct (N.ltb_spec (0x80 + c mod 64) 0xC0); [|nlia].
    all: destruct (N.leb_spec 0x800 c); [|lia].
    all: destruct (N.leb_spec 0xD800 c); destruct (N.leb_spec c 0xDFFF);
      try lia; done. }
  destruct (N.ltb_spec c 0x110000) as [H4|H4]; [|discriminate].
  intros [= <-]. cbn [app utf8_decode].
  rewrite !to_N_byte_of by nlia.
  destruct (N.ltb_spec (0xF0 + c / 262144) 0x80); [nlia|].
  destruct (N.ltb_spec (0xF0 + c / 262144) 0xC2); [nlia|].
  destruct (N.ltb_spec (0xF0 + c / 262144) 0xE0); [nlia|].
  destruct (N.ltb_spec (0xF0 + c / 262144) 0xF0); [nlia|].
  destruct (N.ltb_spec (0xF0 + c / 262144) 0xF5); [|nlia].
  replace ((0xF0 + c / 262144 - 0xF0) * 262144
           + (0x80 + (c / 4096) mod 64 - 0x80) * 4096
           + (0x80 + (c / 64) mod 64 - 0x80) * 64
           + (0x80 + c mod 64 - 0x80)) with c by nlia.
  unfold is_cont.
  destruct (N.leb_spec 0x80 (0x80 + (c / 4096) mod 64)); [|nlia].
  destruct (N.ltb_spec (0x80 + (c / 4096) mod 64) 0xC0); [|nlia].
  destruct (N.leb_spec 0x80 (0x80 + (c / 64) mod 64)); [|nlia].
  destruct (N.ltb_spec (0x80 + (c / 64) mod 64) 0xC0); [|nlia].
  destruct (N.leb_spec 0x80 (0x80 + c mod 64)); [|nlia].
  destruct (N.ltb_spec (0x80 + c mod 64) 0xC0); [|nlia].
  destruct (N.leb_spec 0x10000 c); [|lia].
  destruct (N.ltb_spec c 0x110000); [|lia].
  done.
Qed.

(** Encoding then decoding a string gives the string back. *)
Lemma utf8_decode_encode s bs :
  utf8_encode s = Some bs -> utf8_decode bs = Some s.
Proof.
  revert bs. induction s as [|c t IH]; intros bs; simpl.
  - by intros [= <-].
  - destruct (utf8_encode_char c) as [b|] eqn:Ec; [|done].
    destruct (utf8_encode t) as [bt|] eqn:Et; [|done].
    intros [= <-]. rewrite (utf8_decode_encode_char _ _ _ Ec).
    by rewrite (IH bt eq_refl).
Qed.
Lemma utf8_encode_char_1 n : n < 0x80 -> utf8_encode_char n = Some [byte_of n].
Proof.
  intros H. unfold utf8_encode_char.
  destruct (N.ltb_spec n 0x80); [done | lia].
Qed.

Lemma utf8_encode_char_2 n1 n2 :
  0xC2 <= n1 < 0xE0 -> is_cont n2 = true ->
  utf8_encode_char ((n1 - 0xC0) * 64 + (n2 - 0x80))
  = Some [byte_of n1; byte_of n2].
Proof.
  intros H1 H2. unfold is_cont in H2.
  apply andb_prop in H2 as [H2 H3].
  apply N.leb_le in H2. apply N.ltb_lt in H3.
  unfold utf8_encode_char.
  set (c := (n1 - 0xC0) * 64 + (n2 - 0x80)).
  destruct (N.ltb_spec c 0x80); [subst c; nlia|].
  destruct (N.ltb_spec c 0x800); [|subst c; nlia].
  repeat f_equal; subst c; nlia.
Qed.

Lemma utf8_encode_char_3 n1 n2 n3 :
  0xE0 <= n1 < 0xF0 -> is_cont n2 = true -> is_cont n3 = true ->
  let c := (n1 - 0xE0) * 4096 + (n2 - 0x80) * 64 + (n3 - 0x80) in
  0x800 <= c -> is_surrogate c = false ->
  utf8_encode_char c = Some [byte_of n1; byte_of n2; byte_of n3].
Proof.
  intros H1 H2 H3 c Hc Hs. unfold is_cont in H2, H3.
  apply andb_prop in H2 as [H2 H2']. apply andb_prop in H3 as [H3 H3'].
  apply N.leb_le in H2, H3. apply N.ltb_lt in H2', H3'.
  unfold utf8_encode_char. rewrite Hs.
  destruct (N.ltb_spec c 0x80); [lia|].
  destruct (N.ltb_spec c 0x800); [lia|].
  destruct (N.ltb_spec c 0x10000); [|subst c; nlia].
  repeat f_equal; subst c; nlia.
Qed.

Lemma utf8_encode_char_4 n1 n2 n3 n4 :
  0xF0 <= n1 < 0xF5 ->
  is_cont n2 = true -> is_cont n3 = true -> is_cont n4 = true ->
  let c := (n1 - 0xF0) * 262144 + (n2 - 0x80) * 4096
           + (n3 - 0x80) * 64 + (n4 - 0x80) in
  0x10000 <= c < 0x110000 ->
  utf8_encode_char c
  = Some [byte_of n1; byte_of n2; byte_of n3; byte_of n4].
Proof.
  intros H1 H2 H3 H4 c Hc. unfold is_cont in H2, H3, H4.
  apply andb_prop in H2 as [H2 H2']. apply andb_prop in H3 as [H3 H3'].
  apply andb_prop in H4 as [H4 H4'].
  apply N.leb_le in H2, H3, H4. apply N.ltb_lt in H2', H3', H4'.
  unfold utf8_encode_char.
  destruct (N.ltb_spec c 0x80); [lia|].
  destruct (N.ltb_spec c 0x800); [lia|].
  destruct (N.ltb_spec c 0x10000); [lia|].
  destruct (N.ltb_spec c 0x110000); [|lia].
  repeat f_equal; subst c; nlia.
Qed.

Lemma fmap_cons_Some (c : N) (o : option str) s :
  cons c <$> o = Some s -> exists t, o = Some t /\ s = c :: t.
Proof. destruct o as [t|]; [|done]. intros [= <-]. by exists t. Qed.

Lemma utf8_encode_decode_bounded n : forall bs s,
  (length bs <= n)%nat -> utf8_decode bs = Some s -> utf8_encode s = Some bs.
Proof.
  induction n as [|n IH]; intros bs s Hlen.
  { destruct bs; [|simpl in Hlen; lia]. by intros [= <-]. }
  destruct bs as [|b1 r1]; [by intros [= <-]|].
  cbn [utf8_decode]. cbv zeta. simpl in Hlen.
  pose proof (to_N_lt b1) as Hb1.
  destruct (N.ltb_spec (Byte.to_N b1) 0x80) as [L1|L1].
  { intros (t & Ht & ->)%fmap_cons_Some.
    cbn [utf8_encode]. rewrite utf8_encode_char_1 by done.
    rewrite (IH r1 t) by (done || lia). by rewrite byte_of_to_N. }
  destruct (N.ltb_spec (Byte.to_N b1) 0xC2) as [L2|L2]; [done|].
  destruct (N.ltb_spec (Byte.to_N b1) 0xE0) as [L3|L3].
  { destruct r1 as [|b2 r2]; [done|]. simpl in Hlen.
    destruct (is_cont (Byte.to_N b2)) eqn:C2; [|done].
    intros (t & Ht & ->)%fmap_cons_Some.
    cbn [utf8_encode]. rewrite utf8_encode_char_2 by done.
    rewrite (IH r2 t) by (done || lia). by rewrite !byte_of_to_N. }
  destruct (N.ltb_spec (Byte.to_N b1) 0xF0) as [L4|L4].
  { destruct r1 as [|b2 [|b3 r3]]; [done..|]. simpl in Hlen.
    destruct (is_cont (Byte.to_N b2)) eqn:C2; [|done].
    destruct (is_cont (Byte.to_N b3)) eqn:C3; [|done].
    simpl andb.
    match goal with |- context [N.leb 0x800 ?c] =>
      destruct (N.leb_spec 0x800 c) as [Hc|Hc]; [|done];
      destruct (is_surrogate c) eqn:Hs; [done|] end.
    simpl andb. cbv iota.
    intros (t & Ht & ->)%fmap_cons_Some.
    cbn [utf8_encode]. rewrite utf8_encode_char_3 by done.
    rewrite (IH r3 t) by (done || lia). by rewrite !byte_of_to_N. }
  destruct (N.ltb_spec (Byte.to_N b1) 0xF5) as [L5|L5]; [|done].
  destruct r1 as [|b2 [|b3 [|b4 r4]]]; [done..|]. simpl in Hlen.
  destruct (is_cont (Byte.to_N b2)) eqn:C2; [|done].
  destruct (is_cont (Byte.to_N b3)) eqn:C3; [|done].
  destruct (is_cont (Byte.to_N b4)) eqn:C4; [|done].
  simpl andb.
  match goal with |- context [N.leb 0x10000 ?c] =>
    destruct (N.leb_spec 0x10000 c) as [Hc|Hc]; [|done];
    destruct (N.ltb_spec c 0x110000) as [Hc'|Hc']; [|done] end.
  simpl andb. cbv iota.
  intros (t & Ht & ->)%fmap_cons_Some.
  cbn [utf8_encode]. rewrite utf8_encode_char_4 by done.
  rewrite (IH r4 t) by (done || lia). by rewrite !byte_of_to_N.
Qed.

(** Whatever the strict decoder accepts is the encoding of what it
    returns: no two byte sequences decode to the same string. *)
Lemma utf8_encode_decode bs s :
  utf8_decode bs = Some s -> utf8_encode s = Some bs.
Proof. by apply (utf8_encode_decode_bounded (length bs)). Qed.
Lemma utf8_encode_app a b :
  utf8_encode (a ++ b)
  = match utf8_encode a, utf8_encode b with
    | Some la, Some lb => Some (la ++ lb)
    | _, _ => None
    end.
Proof.
  induction a as [|c a IH]; simpl.
  - by destruct (utf8_encode b).
  - rewrite IH. destruct (utf8_encode_char c), (utf8_encode a), (utf8_encode b);
      try done. by rewrite (assoc_L (++)).
Qed.

(** The last byte of the encoding of a code point is the code point
    itself when it is ASCII, and a continuation byte otherwise. *)
Lemma utf8_encode_char_last c bc :
  utf8_encode_char c = Some bc ->
  (c < 0x80 /\ bc = [byte_of c])
  \/ (exists pre n, bc = pre ++ [byte_of n] /\ 0x80 <= n < 0xC0).
Proof.
  unfold utf8_encode_char.
  destruct (N.ltb_spec c 0x80); [intros [= <-]; by left|].
  destruct (N.ltb_spec c 0x800).
  { intros [= <-]. right.
    exists [byte_of (0xC0 + c / 64)], (0x80 + c mod 64). split; [done|nlia]. }
  destruct (N.ltb_spec c 0x10000).
  { destruct (is_surrogate c); [done|]. intros [= <-]. right.
    exists [byte_of (0xE0 + c / 4096); byte_of (0x80 + (c / 64) mod 64)],
      (0x80 + c mod 64). split; [done|nlia]. }
  destruct (N.ltb_spec c 0x110000); [|done].
  intros [= <-]. right.
  exists [byte_of (0xF0 + c / 262144); byte_of (0x80 + (c / 4096) mod 64);
          byte_of (0x80 + (c / 64) mod 64)], (0x80 + c mod 64).
  split; [done|nlia].
Qed.

Lemma strip_newline_snoc s : strip_newline (s ++ [LF]) = s.
Proof.
  induction s as [|c t IH]; [done|].
  cbn [app strip_newline]. rewrite IH.
  by destruct t.
Qed.

Lemma strip_newline_prefix s :
  s = strip_newline s \/ s = strip_newline s ++ [LF].
Proof.
  induction s as [|c t IH]; [by left|].
  destruct t as [|c' t'].
  - simpl. destruct (N.eqb_spec c LF) as [->|]; [by right | by left].
  - change (strip_newline (c :: c' :: t'))
      with (c :: strip_newline (c' :: t')).
    destruct IH as [IH|IH]; [left | right].
    + by rewrite <- IH.
    + rewrite <- app_comm_cons. f_equal. exact IH.
Qed.

(** The string [input] returns can always be encoded again. *)
Lemma strip_newline_encodable line s :
  utf8_decode line = Some s ->
  exists bs, utf8_encode (strip_newline s) = Some bs.
Proof.
  intros Hd%utf8_encode_decode.
  destruct (strip_newline_prefix s) as [E|E]; rewrite E in Hd.
  - eauto.
  - rewrite utf8_encode_app in Hd.
    destruct (utf8_encode (strip_newline s)); [eauto | done].
Qed.

(** A line that ends with the byte LF decodes to a string that ends with
    the character LF, and what [input] keeps of it is the text of the
    bytes before that LF. *)
Lemma strip_newline_line line s :
  utf8_decode (line ++ [x0a]) = Some s ->
  utf8_encode (strip_newline s) = Some line.
Proof.
  intros Hd%utf8_encode_decode.
  destruct s as [|c s' _] using rev_ind.
  { simpl in Hd. by destruct line. }
  rewrite utf8_encode_app in Hd. simpl in Hd.
  destruct (utf8_encode s') as [b'|] eqn:Es; [|done].
  destruct (utf8_encode_char c) as [bc|] eqn:Ec; [|done].
  rewrite (right_id_L [] (++)) in Hd. injection Hd as Hd.
  apply utf8_encode_char_last in Ec as [[Hc ->]|(pre & n & -> & Hn)].
  - apply app_inj_tail in Hd as [-> Hb].
    assert (c = LF) as ->.
    { rewrite <- (to_N_byte_of c) by lia. by rewrite Hb. }
    by rewrite strip_newline_snoc.
  - rewrite (assoc_L (++)) in Hd. apply app_inj_tail in Hd as [_ Hb].
    exfalso. assert (Byte.to_N (byte_of n) = 10) as E by (by rewrite Hb).
    rewrite to_N_byte_of in E by lia. lia.
Qed.

Lemma translate_out_id s : translate_out s = s.
Proof.
  unfold translate_out. induction s as [|c t IH]; [done|].
  simpl. rewrite IH. by destruct (N.eqb_spec c LF) as [->|].
Qed.


Lemma readline_line (line rest : bytes) :
  x0a ∉ line -> readline (line ++ x0a :: rest) = (line ++ [x0a], rest).
Proof.
  induction line as [|b l IH]; [done|].
  intros [Hb Hl]%not_elem_of_cons. simpl.
  destruct (N.eqb_spec (Byte.to_N b) LF) as [E|E].
  - exfalso. apply Hb. rewrite <- (byte_of_to_N b). by rewrite E.
  - by rewrite IH.
Qed.
End CodecFacts.

(** ** The builtins, call by call *)

Section Calls.
Implicit Types (w : world) (S : str) (path : string).

Lemma print_run s w :
  print s w
  = (Ok tt, World (stdin w) (stdout w ++ s ++ [LF]) (fs w) (faults w) (fds w)
              (log w ++ [EvPrint s])).
Proof. reflexivity. Qed.

Lemma input_eof p w :
  stdin w = [] ->
  input p w
  = (Raise EOFError,
     World (stdin w) (stdout w ++ p) (fs w) (faults w) (fds w)
       (log w ++ [EvInput p (Raise EOFError)])).
Proof.
  intros E. unfold input, logged, set_log, set_stdout. cbn. by rewrite E.
Qed.

Lemma input_undecodable p w :
  stdin w <> [] ->
  utf8_decode (first_line w) = None ->
  input p w
  = (Raise UnicodeDecodeError,
     World (after_line w) (stdout w ++ p) (fs w) (faults w) (fds w)
       (log w ++ [EvInput p (Raise UnicodeDecodeError)])).
Proof.
  unfold first_line, after_line, input, logged. intros Hne Hd.
  destruct (stdin w) as [|b r] eqn:E; [done|].
  destruct (readline (b :: r)) as [line rest]. simpl in Hd.
  by rewrite Hd.
Qed.

Lemma input_typed p w S :
  typed w S ->
  input p w
  = (Ok S,
     World (after_line w) (stdout w ++ p) (fs w) (faults w) (fds w)
       (log w ++ [EvInput p (Ok S)])).
Proof.
  unfold typed, first_line, after_line, input, logged. intros [Hne Hd].
  destruct (stdin w) as [|b r] eqn:E; [done|].
  destruct (readline (b :: r)) as [line rest]. simpl in Hd.
  destruct (utf8_decode line) as [s|]; [|done].
  by injection Hd as <-.
Qed.

(** There is a line to read, it decodes or not: [input] has no other
    case. *)
Lemma input_cases w :
  stdin w = []
  \/ (stdin w <> [] /\ utf8_decode (first_line w) = None)
  \/ (exists S, typed w S).
Proof.
  destruct (stdin w) as [|b r] eqn:E; [by left|right].
  assert (stdin w <> []) as Hne by (by rewrite E).
  destruct (utf8_decode (first_line w)) as [s|] eqn:Hd.
  - right. exists (strip_newline s). split; [done|]. by rewrite Hd.
  - by left.
Qed.

Lemma next_file_free w : fds w !! next_file w = None.
Proof. unfold next_file. apply not_elem_of_dom. apply is_fresh. Qed.
(** *** Opening *)

Lemma open_fault path m w errno :
  next_fault (faults w) = Some errno ->
  open path m w
  = (Raise (OSError errno),
     World (stdin w) (stdout w) (fs w) (tail (faults w)) (fds w)
       (log w ++ [EvOpen path m (Raise (OSError errno))])).
Proof. intros Hf. unfold open, logged. by rewrite Hf. Qed.

Lemma open_w path w :
  next_fault (faults w) = None ->
  open path ModeW w
  = (Ok (next_file w),
     World (stdin w) (stdout w) (<[path := []]> (fs w)) (tail (faults w))
       (<[next_file w := Handle path ModeW 0]> (fds w))
       (log w ++ [EvOpen path ModeW (Ok (next_file w))])).
Proof. intros Hf. unfold open, logged. by rewrite Hf. Qed.

Lemma open_r path w data :
  next_fault (faults w) = None ->
  fs w !! path = Some data ->
  open path ModeR w
  = (Ok (next_file w),
     World (stdin w) (stdout w) (fs w) (tail (faults w))
       (<[next_file w := Handle path ModeR 0]> (fds w))
       (log w ++ [EvOpen path ModeR (Ok (next_file w))])).
Proof. intros Hf Hd. unfold open, logged. by rewrite Hf, Hd. Qed.

Lemma open_r_missing path w :
  next_fault (faults w) = None ->
  fs w !! path = None ->
  open path ModeR w
  = (Raise FileNotFoundError,
     World (stdin w) (stdout w) (fs w) (tail (faults w)) (fds w)
       (log w ++ [EvOpen path ModeR (Raise FileNotFoundError)])).
Proof. intros Hf Hd. unfold open, logged. by rewrite Hf, Hd. Qed.

(** *** Writing and reading through an open file *)

Lemma write_unencodable h S w path pos :
  fds w !! h = Some (Handle path ModeW pos) ->
  utf8_encode S = None ->
  write h S w
  = (Raise UnicodeEncodeError,
     World (stdin w) (stdout w) (fs w) (faults w) (fds w)
       (log w ++ [EvWrite h S (Raise UnicodeEncodeError)])).
Proof.
  intros Hh He. unfold write, logged.
  rewrite Hh, translate_out_id, He. by destruct w.
Qed.

Lemma write_fault h S w path pos bs errno :
  fds w !! h = Some (Handle path ModeW pos) ->
  utf8_encode S = Some bs ->
  next_fault (faults w) = Some errno ->
  write h S w
  = (Raise (OSError errno),
     World (stdin w) (stdout w) (fs w) (tail (faults w)) (fds w)
       (log w ++ [EvWrite h S (Raise (OSError errno))])).
Proof.
  intros Hh He Hf. unfold write, logged.
  by rewrite Hh, translate_out_id, He, Hf.
Qed.

Lemma write_ok h S w path pos bs :
  fds w !! h = Some (Handle path ModeW pos) ->
  utf8_encode S = Some bs ->
  next_fault (faults w) = None ->
  write h S w
  = (Ok (length S),
     World (stdin w) (stdout w)
       (<[path := take pos (default [] (fs w !! path)) ++ bs
                  ++ drop (pos + length bs) (default [] (fs w !! path))]>
          (fs w))
       (tail (faults w))
       (<[h := Handle path ModeW (pos + length bs)]> (fds w))
       (log w ++ [EvWrite h S (Ok (length S))])).
Proof.
  intros Hh He Hf. unfold write, logged.
  by rewrite Hh, translate_out_id, He, Hf.
Qed.

Lemma read_fault h w path pos errno :
  fds w !! h = Some (Handle path ModeR pos) ->
  next_fault (faults w) = Some errno ->
  read h w
  = (Raise (OSError errno),
     World (stdin w) (stdout w) (fs w) (tail (faults w)) (fds w)
       (log w ++ [EvRead h (Raise (OSError errno))])).
Proof. intros Hh Hf. unfold read, logged. by rewrite Hh, Hf. Qed.

Lemma read_undecodable h w path pos :
  fds w !! h = Some (Handle path ModeR pos) ->
  next_fault (faults w) = None ->
  utf8_decode (drop pos (default [] (fs w !! path))) = None ->
  read h w
  = (Raise UnicodeDecodeError,
     World (stdin w) (stdout w) (fs w) (tail (faults w)) (fds w)
       (log w ++ [EvRead h (Raise UnicodeDecodeError)])).
Proof. intros Hh Hf Hd. unfold read, logged. by rewrite Hh, Hf, Hd. Qed.

Lemma read_ok h w path pos s :
  fds w !! h = Some (Handle path ModeR pos) ->
  next_fault (faults w) = None ->
  utf8_decode (drop pos (default [] (fs w !! path))) = Some s ->
  read h w
  = (Ok (universal_newlines s),
     World (stdin w) (stdout w) (fs w) (tail (faults w))
       (<[h := Handle path ModeR (length (default [] (fs w !! path)))]>
          (fds w))
       (log w ++ [EvRead h (Ok (universal_newlines s))])).
Proof. intros Hh Hf Hd. unfold read, logged. by rewrite Hh, Hf, Hd. Qed.

Lemma close_run h w :
  close h w
  = (Ok tt,
     World (stdin w) (stdout w) (fs w) (faults w) (delete h (fds w))
       (log w ++ [EvClose h])).
Proof. reflexivity. Qed.
End Calls.

(** ** The two [with] blocks *)

Ltac step := cbv beta iota; cbn [stdin stdout fs faults fds log].

Section Blocks.
Implicit Types (w : world) (S : str) (path : string).

(** Leaving a [with] block closes the file it opened, whatever the body
    did and however it ended. *)
Lemma with_open_closes {A} path m (body : nat -> M A) w h w1 :
  open path m w = (Ok h, w1) ->
  fds (with_open path m body w).2 !! h = None
  /\ exists pre, log (with_open path m body w).2 = pre ++ [EvClose h].
Proof.
  intros Ho. unfold with_open. rewrite Ho.
  destruct (body h w1) as [r w2]. rewrite close_run. step. split.
  - apply lookup_delete_eq.
  - by eexists.
Qed.

Lemma with_open_fault {A} path m (body : nat -> M A) w errno :
  next_fault (faults w) = Some errno ->
  with_open path m body w
  = (Raise (OSError errno),
     World (stdin w) (stdout w) (fs w) (tail (faults w)) (fds w)
       (log w ++ [EvOpen path m (Raise (OSError errno))])).
Proof. intros Hf. unfold with_open. by rewrite (open_fault _ _ _ errno). Qed.

Lemma fds_restored w hd hd' :
  delete (next_file w) (<[next_file w := hd']> (<[next_file w := hd]> (fds w)))
  = fds w.
Proof.
  rewrite insert_insert_eq. apply delete_insert_id, next_file_free.
Qed.

(** The first block: [with open(path, "w") as file: file.write(S)]. *)
Lemma persist_unencodable path S w :
  next_fault (faults w) = None ->
  utf8_encode S = None ->
  with_open path ModeW (fun file => write file S) w
  = (Raise UnicodeEncodeError,
     World (stdin w) (stdout w) (<[path := []]> (fs w)) (tail (faults w))
       (fds w)
       (log w ++ [EvOpen path ModeW (Ok (next_file w));
                  EvWrite (next_file w) S (Raise UnicodeEncodeError);
                  EvClose (next_file w)])).
Proof.
  intros Hf He. unfold with_open. rewrite open_w by done. step.
  erewrite write_unencodable; [|apply lookup_insert_eq|done].
  rewrite close_run. step.
  rewrite (delete_insert_id _ _ _ (next_file_free w)).
  by rewrite <- !(assoc_L (++)).
Qed.

Lemma persist_fault path S bs w errno :
  next_fault (faults w) = None ->
  utf8_encode S = Some bs ->
  next_fault (tail (faults w)) = Some errno ->
  with_open path ModeW (fun file => write file S) w
  = (Raise (OSError errno),
     World (stdin w) (stdout w) (<[path := []]> (fs w))
       (tail (tail (faults w))) (fds w)
       (log w ++ [EvOpen path ModeW (Ok (next_file w));
                  EvWrite (next_file w) S (Raise (OSError errno));
                  EvClose (next_file w)])).
Proof.
  intros Hf He Hf'. unfold with_open. rewrite open_w by done. step.
  erewrite write_fault; [|apply lookup_insert_eq|done|done].
  rewrite close_run. step.
  rewrite (delete_insert_id _ _ _ (next_file_free w)).
  by rewrite <- !(assoc_L (++)).
Qed.

Lemma persist_ok path S bs w :
  next_fault (faults w) = None ->
  utf8_encode S = Some bs ->
  next_fault (tail (faults w)) = None ->
  with_open path ModeW (fun file => write file S) w
  = (Ok (length S),
     World (stdin w) (stdout w) (<[path := bs]> (fs w))
       (tail (tail (faults w))) (fds w)
       (log w ++ [EvOpen path ModeW (Ok (next_file w));
                  EvWrite (next_file w) S (Ok (length S));
                  EvClose (next_file w)])).
Proof.
  intros Hf He Hf'. unfold with_open. rewrite open_w by done. step.
  erewrite write_ok; [|apply lookup_insert_eq|done|done].
  rewrite close_run. step.
  rewrite lookup_insert_eq, insert_insert_eq. simpl.
  rewrite drop_nil, (right_id_L [] (++)), fds_restored.
  by rewrite <- !(assoc_L (++)).
Qed.
(** The second block:
    [with open(path, "r") as file: saved_content = file.read(); ...]. *)
Local Abbreviation report :=
  (fun file : nat =>
     saved_content <- read file ;;
     print (confirmed ++ saved_content) ;;
     print (str_mul (py "-") 30)).

Lemma verify_missing path w :
  next_fault (faults w) = None ->
  fs w !! path = None ->
  with_open path ModeR report w
  = (Raise FileNotFoundError,
     World (stdin w) (stdout w) (fs w) (tail (faults w)) (fds w)
       (log w ++ [EvOpen path ModeR (Raise FileNotFoundError)])).
Proof. intros Hf Hm. unfold with_open. by rewrite open_r_missing. Qed.

Lemma verify_fault path data w errno :
  next_fault (faults w) = None ->
  fs w !! path = Some data ->
  next_fault (tail (faults w)) = Some errno ->
  with_open path ModeR report w
  = (Raise (OSError errno),
     World (stdin w) (stdout w) (fs w) (tail (tail (faults w))) (fds w)
       (log w ++ [EvOpen path ModeR (Ok (next_file w));
                  EvRead (next_file w) (Raise (OSError errno));
                  EvClose (next_file w)])).
Proof.
  intros Hf Hd Hf'. unfold with_open. rewrite (open_r _ _ data) by done.
  step. unfold bind at 1.
  erewrite read_fault; [|apply lookup_insert_eq|done].
  rewrite close_run. step.
  rewrite (delete_insert_id _ _ _ (next_file_free w)).
  by rewrite <- !(assoc_L (++)).
Qed.

Lemma verify_undecodable path data w :
  next_fault (faults w) = None ->
  fs w !! path = Some data ->
  next_fault (tail (faults w)) = None ->
  utf8_decode data = None ->
  with_open path ModeR report w
  = (Raise UnicodeDecodeError,
     World (stdin w) (stdout w) (fs w) (tail (tail (faults w))) (fds w)
       (log w ++ [EvOpen path ModeR (Ok (next_file w));
                  EvRead (next_file w) (Raise UnicodeDecodeError);
                  EvClose (next_file w)])).
Proof.
  intros Hf Hd Hf' Hu. unfold with_open. rewrite (open_r _ _ data) by done.
  step. unfold bind at 1.
  erewrite read_undecodable;
    [|apply lookup_insert_eq|done|cbn [fs]; by rewrite Hd].
  rewrite close_run. step.
  rewrite (delete_insert_id _ _ _ (next_file_free w)).
  by rewrite <- !(assoc_L (++)).
Qed.

Lemma verify_ok path data s w :
  next_fault (faults w) = None ->
  fs w !! path = Some data ->
  next_fault (tail (faults w)) = None ->
  utf8_decode data = Some s ->
  with_open path ModeR report w
  = (Ok tt,
     World (stdin w)
       (stdout w ++ (confirmed ++ universal_newlines s) ++ [LF]
          ++ rule ++ [LF])
       (fs w) (tail (tail (faults w))) (fds w)
       (log w ++ [EvOpen path ModeR (Ok (next_file w));
                  EvRead (next_file w) (Ok (universal_newlines s));
                  EvPrint (confirmed ++ universal_newlines s);
                  EvPrint rule;
                  EvClose (next_file w)])).
Proof.
  intros Hf Hd Hf' Hu. unfold with_open. rewrite (open_r _ _ data) by done.
  step. unfold bind.
  erewrite read_ok; [|apply lookup_insert_eq|done|cbn [fs]; by rewrite Hd].
  step. rewrite !print_run. step. rewrite close_run. step.
  rewrite fds_restored.
  by rewrite <- !(assoc_L (++)).
Qed.
End Blocks.

(** ** The script from start to end *)

Section Runs.
Implicit Types (w : world) (S : str).

Lemma main_eof w :
  stdin w = [] ->
  main w
  = (Raise EOFError,
     World [] (stdout w ++ out_prompt) (fs w) (faults w) (fds w)
       (log w ++ calls_prompt (Raise EOFError))).
Proof.
  intros He. unfold main, bind. rewrite print_run. step.
  rewrite input_eof by done. step. rewrite He.
  unfold out_prompt, calls_prompt. by rewrite <- !(assoc_L (++)).
Qed.

Lemma main_undecodable w :
  stdin w <> [] ->
  utf8_decode (first_line w) = None ->
  main w
  = (Raise UnicodeDecodeError,
     World (after_line w) (stdout w ++ out_prompt) (fs w) (faults w) (fds w)
       (log w ++ calls_prompt (Raise UnicodeDecodeError))).
Proof.
  intros Hne Hd. unfold main, bind. rewrite print_run. step.
  rewrite input_undecodable by done. step.
  unfold out_prompt, calls_prompt. by rewrite <- !(assoc_L (++)).
Qed.
(** What was typed can be written, and reads back as text. *)
Lemma typed_encodable w S :
  typed w S ->
  exists bs, utf8_encode S = Some bs /\ utf8_decode bs = Some S.
Proof.
  intros [_ Ht].
  destruct (utf8_decode (first_line w)) as [s|] eqn:Hd; [|done].
  injection Ht as <-.
  destruct (strip_newline_encodable _ _ Hd) as [bs Hbs].
  exists bs. split; [done|]. by apply utf8_decode_encode.
Qed.

Lemma typed_unique w S S' : typed w S -> typed w S' -> S = S'.
Proof. intros [_ H] [_ H']. congruence. Qed.

Ltac prompt_typed HS :=
  unfold main, bind; rewrite print_run; step;
  match goal with
  | |- context [input ?p ?w1] => rewrite (input_typed p w1 _ HS)
  end; step.

Ltac tidy :=
  unfold next_file, after_line; step;
  unfold out_done, out_saving, out_prompt, calls_prompt, calls_persist,
    calls_saving, calls_verify, next_file;
  rewrite <- ?(assoc_L (++)); try reflexivity.

Lemma main_open_w_fails w S errno :
  typed w S ->
  next_fault (faults w) = Some errno ->
  main w
  = (Raise (OSError errno),
     World (after_line w) (stdout w ++ out_prompt) (fs w)
       (tail (faults w)) (fds w)
       (log w ++ calls_prompt (Ok S)
          ++ [EvOpen filename ModeW (Raise (OSError errno))])).
Proof.
  intros HS Hf. prompt_typed HS.
  rewrite (with_open_fault _ _ _ _ errno) by done. tidy.
Qed.

Lemma main_write_fails w S errno :
  typed w S ->
  next_fault (faults w) = None ->
  next_fault (tail (faults w)) = Some errno ->
  main w
  = (Raise (OSError errno),
     World (after_line w) (stdout w ++ out_prompt)
       (<[filename := []]> (fs w))
       (tail (tail (faults w))) (fds w)
       (log w ++ calls_prompt (Ok S)
          ++ calls_persist (next_file w) S (Raise (OSError errno)))).
Proof.
  intros HS Hf0 Hf1. prompt_typed HS.
  destruct (typed_encodable _ _ HS) as (bs & He & _).
  rewrite (persist_fault _ _ bs _ errno) by done. tidy.
Qed.

Lemma main_open_r_fails w S bs errno :
  typed w S ->
  utf8_encode S = Some bs ->
  next_fault (faults w) = None ->
  next_fault (tail (faults w)) = None ->
  next_fault (tail (tail (faults w))) = Some errno ->
  main w
  = (Raise (OSError errno),
     World (after_line w) (stdout w ++ out_saving)
       (<[filename := bs]> (fs w))
       (tail (tail (tail (faults w)))) (fds w)
       (log w ++ calls_prompt (Ok S)
          ++ calls_persist (next_file w) S (Ok (length S))
          ++ calls_saving
          ++ [EvOpen filename ModeR (Raise (OSError errno))])).
Proof.
  intros HS He Hf0 Hf1 Hf2. prompt_typed HS.
  rewrite (persist_ok _ _ bs) by done. step.
  rewrite !print_run. step.
  rewrite (with_open_fault _ _ _ _ errno) by done. tidy.
Qed.

Lemma main_read_fails w S bs errno :
  typed w S ->
  utf8_encode S = Some bs ->
  next_fault (faults w) = None ->
  next_fault (tail (faults w)) = None ->
  next_fault (tail (tail (faults w))) = None ->
  next_fault (tail (tail (tail (faults w)))) = Some errno ->
  main w
  = (Raise (OSError errno),
     World (after_line w) (stdout w ++ out_saving)
       (<[filename := bs]> (fs w))
       (tail (tail (tail (tail (faults w))))) (fds w)
       (log w ++ calls_prompt (Ok S)
          ++ calls_persist (next_file w) S (Ok (length S))
          ++ calls_saving
          ++ [EvOpen filename ModeR (Ok (next_file w));
              EvRead (next_file w) (Raise (OSError errno));
              EvClose (next_file w)])).
Proof.
  intros HS He Hf0 Hf1 Hf2 Hf3. prompt_typed HS.
  rewrite (persist_ok _ _ bs) by done. step.
  rewrite !print_run. step.
  rewrite (verify_fault _ bs _ errno);
    [|done|apply lookup_insert_eq|done].
  tidy.
Qed.

Lemma main_done w S bs :
  typed w S ->
  utf8_encode S = Some bs ->
  next_fault (faults w) = None ->
  next_fault (tail (faults w)) = None ->
  next_fault (tail (tail (faults w))) = None ->
  next_fault (tail (tail (tail (faults w)))) = None ->
  main w
  = (Ok tt,
     World (after_line w) (stdout w ++ out_done (universal_newlines S))
       (<[filename := bs]> (fs w))
       (tail (tail (tail (tail (faults w))))) (fds w)
       (log w ++ calls_prompt (Ok S)
          ++ calls_persist (next_file w) S (Ok (length S))
          ++ calls_saving
          ++ calls_verify (next_file w) (universal_newlines S))).
Proof.
  intros HS He Hf0 Hf1 Hf2 Hf3. prompt_typed HS.
  rewrite (persist_ok _ _ bs) by done. step.
  rewrite !print_run. step.
  rewrite (verify_ok _ bs S);
    [|done|apply lookup_insert_eq|done|by apply utf8_decode_encode].
  tidy.
Qed.

(** Every run of the script is one of the seven runs of [main_run]. *)
Lemma main_run_intro w : main_run w (main w).1 (main w).2.
Proof.
  destruct (input_cases w) as [He | [[Hne Hd] | [S HS]]].
  { rewrite main_eof by done. by constructor. }
  { rewrite main_undecodable by done. by constructor. }
  destruct (typed_encodable _ _ HS) as (bs & Hbs & _).
  destruct (next_fault (faults w)) as [e0|] eqn:F0.
  { rewrite (main_open_w_fails _ S e0) by done. by constructor. }
  destruct (next_fault (tail (faults w))) as [e1|] eqn:F1.
  { rewrite (main_write_fails _ S e1) by done. by constructor. }
  destruct (next_fault (tail (tail (faults w)))) as [e2|] eqn:F2.
  { rewrite (main_open_r_fails _ S bs e2) by done. by econstructor. }
  destruct (next_fault (tail (tail (tail (faults w))))) as [e3|] eqn:F3.
  { rewrite (main_read_fails _ S bs e3) by done. by econstructor. }
  rewrite (main_done _ S bs) by done. by econstructor.
Qed.

Lemma main_run_inv w r w' : main w = (r, w') -> main_run w r w'.
Proof. intros E. pose proof (main_run_intro w) as H. by rewrite E in H. Qed.
End Runs.

(** ** Successful runs *)

Section Success.
Implicit Types (w : world) (S : str).



(** And a run that reaches its end is such a run. *)
Lemma main_ok_inv w w' :
  main w = (Ok tt, w') ->
  exists S bs,
    typed w S /\ quiet w
    /\ utf8_encode S = Some bs /\ utf8_decode bs = Some S
    /\ w' = World (after_line w)
              (stdout w ++ out_done (universal_newlines S))
              (<[filename := bs]> (fs w))
              (tail (tail (tail (tail (faults w))))) (fds w)
              (log w ++ calls_prompt (Ok S)
                 ++ calls_persist (next_file w) S (Ok (length S))
                 ++ calls_saving
                 ++ calls_verify (next_file w) (universal_newlines S)).
Proof.
  intros Hm%main_run_inv. inversion Hm as [| | | | | |S bs HS He F0 F1 F2 F3].
  exists S, bs. split; [done|]. split.
  { unfold quiet, responses. by rewrite F0, F1, F2, F3. }
  split; [done|]. split; [by apply utf8_decode_encode | done].
Qed.
End Success.

(** ** Every text is a line someone can type *)

Section Typing.
Local Open Scope N_scope.

Lemma utf8_encode_char_lf c bc :
  utf8_encode_char c = Some bc -> x0a ∈ bc -> c = LF.
Proof.
  assert (forall n, 0x80 <= n < 256 -> x0a <> byte_of n) as Hhigh.
  { intros n Hn E. apply (f_equal Byte.to_N) in E.
    rewrite to_N_byte_of in E by lia. vm_compute in E. lia. }
  unfold utf8_encode_char.
  destruct (N.ltb_spec c 0x80).
  { intros [= <-] Hin%list_elem_of_singleton.
    apply (f_equal Byte.to_N) in Hin.
    rewrite to_N_byte_of in Hin by lia. by rewrite <- Hin. }
  destruct (N.ltb_spec c 0x800).
  { intros [= <-] Hin. exfalso.
    repeat (apply elem_of_cons in Hin as [Hin|Hin];
            [by apply Hhigh in Hin; [|nlia]|]).
    by apply elem_of_nil in Hin. }
  destruct (N.ltb_spec c 0x10000).
  { destruct (is_surrogate c); [done|]. intros [= <-] Hin. exfalso.
    repeat (apply elem_of_cons in Hin as [Hin|Hin];
            [by apply Hhigh in Hin; [|nlia]|]).
    by apply elem_of_nil in Hin. }
  destruct (N.ltb_spec c 0x110000); [|done].
  intros [= <-] Hin. exfalso.
  repeat (apply elem_of_cons in Hin as [Hin|Hin];
          [by apply Hhigh in Hin; [|nlia]|]).
  by apply elem_of_nil in Hin.
Qed.

Lemma utf8_encode_lf (S : str) bs :
  utf8_encode S = Some bs -> LF ∉ S -> x0a ∉ bs.
Proof.
  revert bs. induction S as [|c t IH]; intros bs He Hn.
  { injection He as <-. apply not_elem_of_nil. }
  simpl in He.
  destruct (utf8_encode_char c) as [bc|] eqn:Ec; [|done].
  destruct (utf8_encode t) as [bt|] eqn:Et; [|done].
  injection He as <-. apply not_elem_of_cons in Hn as [Hc Ht].
  apply not_elem_of_app. split; [|by apply IH].
  intros Hin. by apply Hc, eq_sym, (utf8_encode_char_lf c bc).
Qed.

(** Any text that has an encoding and no newline in it is what [input]
    returns when the bytes of that encoding, then a newline, are waiting
    on standard input: the empty text, and text outside ASCII, too. *)
Lemma any_text_can_be_typed (S : str) bs rest w :
  utf8_encode S = Some bs -> LF ∉ S ->
  stdin w = bs ++ x0a :: rest ->
  typed w S.
Proof.
  intros He Hn E. split; [rewrite E; by destruct bs|].
  unfold first_line.
  rewrite E, readline_line by (by apply (utf8_encode_lf S)).
  cbn [fst].
  rewrite (utf8_decode_encode (S ++ [LF]) (bs ++ [x0a])).
  - simpl. by rewrite strip_newline_snoc.
  - rewrite utf8_encode_app, He. reflexivity.
Qed.
End Typing.

(** ** Writing, then reading back *)






(** The confirmation is not an echo of what was typed: on the line
    [a CR b], [input] returned [a CR b] and the script printed [a LF b]. *)
Example confirmation_is_not_an_echo :
  In (EvInput prompt (Ok [97; 13; 98]%N)) (log (main cr_world).2)
  /\ In (EvPrint (confirmed ++ [97; 10; 98]%N)) (log (main cr_world).2).
Proof. split; vm_compute; tauto. Qed.

(** ** What the file holds *)



(** The same, as two runs in a row: after the second one the file holds
    the goal of the second one. *)
Lemma second_run_replaces_first w w1 w2 typed2 S2 :
  main w = (Ok tt, w1) ->
  main (set_stdin typed2 w1) = (Ok tt, w2) ->
  typed (set_stdin typed2 w1) S2 ->
  exists bs2, utf8_encode S2 = Some bs2 /\ fs w2 !! filename = Some bs2.
Proof.
  intros _ (S & bs & HS & _ & He & _ & ->)%main_ok_inv HS2.
  rewrite (typed_unique _ _ _ HS2 HS).
  exists bs. split; [done|]. apply lookup_insert_eq.
Qed.

(** C4: in every run that reaches its end, the file holds the encoding of
    the string [input] returned, from its first byte to its last: no
    header, no byte order mark, no newline after it. *)
Theorem file_holds_the_goal_verbatim w w' :
  main w = (Ok tt, w') ->
  exists tr S bs,
    log w' = log w ++ tr
    /\ In (EvInput prompt (Ok S)) tr
    /\ (forall p r, In (EvInput p r) tr -> r = Ok S)
    /\ utf8_encode S = Some bs
    /\ fs w' !! filename = Some bs
    /\ utf8_decode bs = Some S.
Proof.
  intros (S & bs & HS & Hq & He & Hd & ->)%main_ok_inv.
  eexists _, S, bs. cbn [log fs]. split; [reflexivity|].
  unfold calls_prompt, calls_persist, calls_saving, calls_verify.
  split; [simpl; tauto|].
  split; [intros p r; simpl; intuition congruence|].
  split; [done|]. split; [apply lookup_insert_eq | done].
Qed.

Lemma file_holds_the_goal_verbatim_witness :
  main check_world = (Ok tt, (main check_world).2)
  /\ exists S bs,
      In (EvInput prompt (Ok S)) (log (main check_world).2)
      /\ utf8_encode S = Some bs
      /\ fs (main check_world).2 !! filename = Some bs.
Proof.
  assert (main check_world = (Ok tt, (main check_world).2)) as Hm
    by (by vm_compute).
  split; [exact Hm|].
  destruct (file_holds_the_goal_verbatim _ _ Hm)
    as (tr & S & bs & Hl & Hi & _ & He & Hf & _).
  exists S, bs. split; [|split; assumption].
  rewrite Hl. apply in_or_app. by right.
Defined.

(** ** What the user sees *)



(** ** Runs that fail *)

Section Failures.
Implicit Types (w : world) (tr pre post : list event).

Local Abbreviation harmless := (Forall (fun x => failure x = None)).

(** A trace has at most one place where a call failed when everything
    before and after that place succeeded. *)
Lemma failure_unique pre0 ev0 post0 pre ev post e :
  harmless pre0 -> harmless post0 ->
  pre0 ++ ev0 :: post0 = pre ++ ev :: post ->
  failure ev = Some e ->
  pre = pre0 /\ ev = ev0 /\ post = post0.
Proof.
  intros Hpre Hpost. revert pre.
  induction Hpre as [|x pre0 Hx Hpre IH]; intros [|y pre]; simpl;
    intros [= -> E] Hev.
  - done.
  - rewrite E in Hpost. apply Forall_app in Hpost as [_ Hp].
    apply Forall_cons in Hp as [Hp _]. congruence.
  - congruence.
  - destruct (IH _ E Hev) as (-> & -> & ->). done.
Qed.

Lemma harmless_no_failure tr pre ev post e :
  harmless tr -> tr = pre ++ ev :: post -> failure ev = Some e -> False.
Proof.
  intros H -> Hev. apply Forall_app in H as [_ H].
  apply Forall_cons in H as [H _]. congruence.
Qed.

(** The trace of a run: no call fails in a run that reaches its end; a
    run that raises made exactly one call that failed, raises what that
    call raised, and after it only closed the file the call was made
    on, if there was one. *)
Lemma main_trace w :
  exists tr,
    log (main w).2 = log w ++ tr
    /\ match (main w).1 with
       | Ok _ => harmless tr
       | Raise e =>
         exists pre ev post,
           tr = pre ++ ev :: post
           /\ harmless pre /\ failure ev = Some e
           /\ (post = [] \/ exists h, post = [EvClose h])
           /\ forall content, ~ In (EvPrint (confirmed ++ content)) tr
       end.
Proof.
  pose proof (main_run_intro w) as H.
  destruct (main w) as [r w']. simpl in *.
  destruct H; cbn [log]; eexists; (split; [reflexivity|]);
    unfold calls_prompt, calls_persist, calls_saving, calls_verify.
  - exists [EvPrint header], (EvInput prompt (Raise EOFError)), [].
    split; [done|]. split; [by repeat constructor|].
    split; [done|]. split; [by left|].
    intros c. simpl. intuition discriminate.
  - exists [EvPrint header], (EvInput prompt (Raise UnicodeDecodeError)), [].
    split; [done|]. split; [by repeat constructor|].
    split; [done|]. split; [by left|].
    intros c. simpl. intuition discriminate.
  - exists [EvPrint header; EvInput prompt (Ok S)],
      (EvOpen filename ModeW (Raise (OSError errno))), [].
    split; [done|]. split; [by repeat constructor|].
    split; [done|]. split; [by left|].
    intros c. simpl. intuition discriminate.
  - exists [EvPrint header; EvInput prompt (Ok S);
            EvOpen filename ModeW (Ok (next_file w))],
      (EvWrite (next_file w) S (Raise (OSError errno))),
      [EvClose (next_file w)].
    split; [done|]. split; [by repeat constructor|].
    split; [done|]. split; [right; by eexists|].
    intros c. simpl. intuition discriminate.
  - exists ([EvPrint header; EvInput prompt (Ok S)]
            ++ calls_persist (next_file w) S (Ok (length S)) ++ calls_saving),
      (EvOpen filename ModeR (Raise (OSError errno))), [].
    split; [done|]. split; [by repeat constructor|].
    split; [done|]. split; [by left|].
    intros c. simpl. intuition discriminate.
  - exists ([EvPrint header; EvInput prompt (Ok S)]
            ++ calls_persist (next_file w) S (Ok (length S)) ++ calls_saving
            ++ [EvOpen filename ModeR (Ok (next_file w))]),
      (EvRead (next_file w) (Raise (OSError errno))),
      [EvClose (next_file w)].
    split; [done|]. split; [by repeat constructor|].
    split; [done|]. split; [right; by eexists|].
    intros c. simpl. intuition discriminate.
  - by repeat constructor.
Qed.
End Failures.

(** C6: whenever a call of the script fails, the run ends with the
    exception that call raised.  No call before it had failed, the call
    is not made again, nothing is printed after it, and the only call that
    follows is the [close] of the file the failing call was made on. *)
Theorem failures_end_the_run w pre ev post e :
  log (main w).2 = log w ++ pre ++ ev :: post ->
  failure ev = Some e ->
  (main w).1 = Raise e
  /\ Forall (fun x => failure x = None) pre
  /\ (post = [] \/ exists h, post = [EvClose h])
  /\ forall content, ~ In (EvPrint (confirmed ++ content)) (pre ++ ev :: post).
Proof.
  intros Hl Hev. destruct (main_trace w) as (tr & Htr & Hspec).
  rewrite Htr in Hl. apply app_inv_head in Hl. subst tr.
  destruct (main w).1 as [[]|e0].
  - destruct (harmless_no_failure _ _ _ _ _ Hspec eq_refl Hev).
  - destruct Hspec as (pre0 & ev0 & post0 & E & Hpre & Hev0 & Hpost & Hno).
    assert (Forall (fun x => failure x = None) post0) as Hpost0.
    { destruct Hpost as [->|[h ->]]; by repeat constructor. }
    symmetry in E.
    destruct (failure_unique _ _ _ _ _ _ _ Hpre Hpost0 E Hev) as (-> & -> & ->).
    split; [congruence|]. split; [done|]. split; [done|]. exact Hno.
Qed.

Lemma failures_end_the_run_witness :
  log (main full_world).2
  = log full_world
    ++ [EvPrint header; EvInput prompt (Ok (py "Ship v2"));
        EvOpen filename ModeW (Ok 0)]
    ++ EvWrite 0 (py "Ship v2") (Raise (OSError 28)) :: [EvClose 0]
  /\ failure (EvWrite 0 (py "Ship v2") (Raise (OSError 28))) = Some (OSError 28)
  /\ (main full_world).1 = Raise (OSError 28).
Proof.
  assert (log (main full_world).2
          = log full_world
            ++ [EvPrint header; EvInput prompt (Ok (py "Ship v2"));
                EvOpen filename ModeW (Ok 0)]
            ++ EvWrite 0 (py "Ship v2") (Raise (OSError 28)) :: [EvClose 0])
    as Hl by (by vm_compute).
  split; [exact Hl|]. split; [reflexivity|].
  exact (proj1 (failures_end_the_run _ _ _ _ _ Hl eq_refl)).
Defined.

(** The three failures the spec lists, and a failure inside a [with]
    block, run on sample worlds. *)
Example end_of_input_run :
  main eof_world
  = (Raise EOFError,
     World [] (header ++ [LF] ++ prompt) ∅ [] ∅
       [EvPrint header; EvInput prompt (Raise EOFError)]).
Proof. by vm_compute. Qed.

Example read_only_directory_run :
  (main readonly_world).1 = Raise (OSError 13)
  /\ stdout (main readonly_world).2 = header ++ [LF] ++ prompt
  /\ fs (main readonly_world).2 !! filename
     = Some (String.list_byte_of_string "Learn to type faster")
  /\ fds (main readonly_world).2 = ∅.
Proof. by vm_compute. Qed.

Example unreadable_file_run :
  (main unreadable_world).1 = Raise (OSError 13)
  /\ stdout (main unreadable_world).2 = out_saving
  /\ fs (main unreadable_world).2 !! filename
     = Some (String.list_byte_of_string "Ship v2")
  /\ fds (main unreadable_world).2 = ∅.
Proof. by vm_compute. Qed.

Example failed_read_run :
  (main broken_world).1 = Raise (OSError 5)
  /\ stdout (main broken_world).2 = out_saving
  /\ fds (main broken_world).2 = ∅
  /\ last (log (main broken_world).2) = Some (EvClose 0).
Proof. by vm_compute. Qed.

Example full_device_run :
  (main full_world).1 = Raise (OSError 28)
  /\ fs (main full_world).2 !! filename = Some []
  /\ fds (main full_world).2 = ∅
  /\ last (log (main full_world).2) = Some (EvClose 0).
Proof. by vm_compute. Qed.

(** ** The empty line *)




(** ** Open files *)

(** Looking for an event in a trace that is written out. *)
Ltac walk H pre fin :=
  destruct pre as [|? pre]; simpl in H;
  [ inversion H; subst; fin
  | first [ discriminate H | injection H as _ H; walk H pre fin ] ].

(** C8: in every run, whether it reaches its end or raises, each file the
    script opened is closed afterwards, and the table of open files is
    left as it was found.  (For the [with] statement by itself, with any
    body, see [with_open_closes].) *)
Theorem files_are_released w :
  fds (main w).2 = fds w
  /\ forall pre path m h post,
       log (main w).2 = log w ++ pre ++ EvOpen path m (Ok h) :: post ->
       In (EvClose h) post.
Proof.
  pose proof (main_run_intro w) as H.
  destruct (main w) as [r w']. simpl in *.
  destruct H; cbn [log fds]; (split; [reflexivity|]);
    intros pre path m h post Hl; apply app_inv_head in Hl;
    unfold calls_prompt, calls_persist, calls_saving, calls_verify in Hl;
    simpl in Hl; walk Hl pre ltac:(simpl; tauto).
Qed.

Lemma files_are_released_witness :
  log (main full_world).2
  = log full_world
    ++ [EvPrint header; EvInput prompt (Ok (py "Ship v2"))]
    ++ EvOpen filename ModeW (Ok 0)
       :: [EvWrite 0 (py "Ship v2") (Raise (OSError 28)); EvClose 0]
  /\ In (EvClose 0) [EvWrite 0 (py "Ship v2") (Raise (OSError 28)); EvClose 0]
  /\ fds (main full_world).2 = fds full_world.
Proof.
  assert (log (main full_world).2
          = log full_world
            ++ [EvPrint header; EvInput prompt (Ok (py "Ship v2"))]
            ++ EvOpen filename ModeW (Ok 0)
               :: [EvWrite 0 (py "Ship v2") (Raise (OSError 28)); EvClose 0])
    as Hl by (by vm_compute).
  split; [exact Hl|].
  destruct (files_are_released full_world) as [Hfds Hclose].
  split; [exact (Hclose _ _ _ _ _ Hl) | exact Hfds].
Defined.

Example files_are_released_when_write_fails :
  fds (main full_world).2 = fds full_world
  /\ log (main full_world).2
     = [EvPrint header; EvInput prompt (Ok (py "Ship v2"));
        EvOpen filename ModeW (Ok 0);
        EvWrite 0 (py "Ship v2") (Raise (OSError 28));
        EvClose 0].
Proof. by vm_compute. Qed.

(** ** The newline that ends the line *)

Lemma utf8_encode_no_lf (S : str) bs :
  utf8_encode S = Some bs -> x0a ∉ bs -> LF ∉ S.
Proof.
  revert bs. induction S as [|c t IH]; intros bs He Hn.
  { apply not_elem_of_nil. }
  simpl in He.
  destruct (utf8_encode_char c) as [bc|] eqn:Ec; [|done].
  destruct (utf8_encode t) as [bt|] eqn:Et; [|done].
  injection He as <-. apply not_elem_of_app in Hn as [Hc Ht].
  apply not_elem_of_cons. split; [|by apply (IH bt)].
  intros <-. apply Hc. vm_compute in Ec. injection Ec as <-. by left.
Qed.



(** ** Two runs *)

Section Determinism.
Implicit Types (w : world) (S : str).

Lemma readline_nil bs : (readline bs).1 = [] -> bs = [].
Proof.
  destruct bs as [|b r]; [done|]. simpl.
  destruct (Byte.to_N b =? LF)%N; [done|].
  by destruct (readline r).
Qed.

Lemma first_line_nil w : stdin w = [] -> first_line w = [].
Proof. unfold first_line. by intros ->. Qed.

Lemma first_line_cons w : stdin w <> [] -> first_line w <> [].
Proof. intros Hne E. by apply Hne, readline_nil. Qed.

Lemma typed_first_line w S :
  typed w S ->
  first_line w <> []
  /\ exists s, utf8_decode (first_line w) = Some s /\ S = strip_newline s.
Proof.
  intros [Hne HS]. split; [by apply first_line_cons|].
  destruct (utf8_decode (first_line w)) as [s|]; [|done].
  injection HS as <-. by exists s.
Qed.
End Determinism.

(** C10: two runs that are given the same line, on standard inputs that
    are UTF-8 throughout, and the same answers by the operating system
    end the same way and send the same text to standard output, whatever
    else differs between the two worlds.  They leave the same content in
    [my_goal.txt] when they found the same content there, and also,
    whatever they found there, when they reach their end. *)
Theorem runs_are_determined w1 w2 :
  first_line w1 = first_line w2 ->
  utf8_input w1 -> utf8_input w2 ->
  responses w1 = responses w2 ->
  (main w1).1 = (main w2).1
  /\ (exists out,
        stdout (main w1).2 = stdout w1 ++ out
        /\ stdout (main w2).2 = stdout w2 ++ out)
  /\ (fs w1 !! filename = fs w2 !! filename ->
      fs (main w1).2 !! filename = fs (main w2).2 !! filename)
  /\ ((main w1).1 = Ok tt ->
      fs (main w1).2 !! filename = fs (main w2).2 !! filename).
Proof.
  intros Hline _ _ Hresp. unfold responses in Hresp.
  injection Hresp as R0 R1 R2 R3.
  pose proof (main_run_intro w1) as H1.
  pose proof (main_run_intro w2) as H2.
  destruct (main w1) as [r1 w1'], (main w2) as [r2 w2']. simpl in *.
  destruct H1, H2;
    repeat match goal with
           | H : stdin _ = [] |- _ => apply first_line_nil in H
           | H : stdin _ <> [] |- _ => apply first_line_cons in H
           | H : typed _ _ |- _ =>
             apply typed_first_line in H as (? & ? & ? & ->)
           end;
    try congruence;
    repeat match goal with
           | H : utf8_decode (first_line w1) = Some ?s,
             H' : utf8_decode (first_line w2) = Some ?s' |- _ =>
             assert (s = s') by congruence; subst s'; clear H'
           | H : utf8_encode ?S = Some ?bs, H' : utf8_encode ?S = Some ?bs'
             |- _ =>
             assert (bs = bs') by congruence; subst bs'; clear H'
           end;
    cbn [stdout fs];
    (split; [congruence|]);
    (split; [eexists; split; reflexivity|]);
    rewrite ?lookup_insert_eq; (split; [done|]); done.
Qed.

Lemma runs_are_determined_witness :
  first_line ship_world = first_line (set_stdout (py "$ ") (set_fs ∅ ship_world))
  /\ utf8_input ship_world
  /\ utf8_input (set_stdout (py "$ ") (set_fs ∅ ship_world))
  /\ responses ship_world = responses (set_stdout (py "$ ") (set_fs ∅ ship_world))
  /\ (main ship_world).1 = (main (set_stdout (py "$ ") (set_fs ∅ ship_world))).1
  /\ fs (main ship_world).2 !! filename
     = fs (main (set_stdout (py "$ ") (set_fs ∅ ship_world))).2 !! filename.
Proof.
  assert (first_line ship_world
          = first_line (set_stdout (py "$ ") (set_fs ∅ ship_world))) as Hl
    by reflexivity.
  assert (utf8_input ship_world) as Hu1
    by (by exists (py "Ship v2" ++ [LF])).
  assert (utf8_input (set_stdout (py "$ ") (set_fs ∅ ship_world))) as Hu2
    by (by exists (py "Ship v2" ++ [LF])).
  assert (responses ship_world
          = responses (set_stdout (py "$ ") (set_fs ∅ ship_world))) as Hr
    by reflexivity.
  split; [exact Hl|]. split; [exact Hu1|]. split; [exact Hu2|].
  split; [exact Hr|].
  destruct (runs_are_determined _ _ Hl Hu1 Hu2 Hr) as (Hres & _ & _ & Hfile).
  split; [exact Hres|]. apply Hfile. by vm_compute.
Defined.


(** * More about the script *)

(** ** What a run leaves alone *)

(** X1: the script touches one file.  Whatever the outcome of the run,
    every other file of the directory, present or not, is as it was. *)
Theorem other_files_are_untouched w path :
  path <> filename -> fs (main w).2 !! path = fs w !! path.
Proof.
  intros Hne. pose proof (main_run_intro w) as H.
  destruct (main w) as [r w']. simpl in *.
  destruct H; cbn [fs]; rewrite ?lookup_insert_ne by done; reflexivity.
Qed.

Lemma other_files_are_untouched_witness :
  "notes.txt" <> filename
  /\ fs (main (set_fs (<["notes.txt" := [x0a]]> (fs ship_world)) ship_world)).2
       !! "notes.txt"
     = Some [x0a].
Proof.
  assert ("notes.txt" <> filename) as Hne by discriminate.
  split; [exact Hne|].
  rewrite (other_files_are_untouched _ _ Hne). by vm_compute.
Defined.







(** ** The goal is one line *)

Section OneLine.
Implicit Types (w : world) (S s : str) (bs : bytes).

Lemma byte_is_lf (b : byte) : (Byte.to_N b =? LF)%N = true -> b = x0a.
Proof.
  intros E%N.eqb_eq. rewrite <- (byte_of_to_N b). by rewrite E.
Qed.

Lemma byte_is_not_lf (b : byte) : (Byte.to_N b =? LF)%N = false -> b <> x0a.
Proof. intros E%N.eqb_neq ->. by apply E. Qed.

(** A line either has no newline at all, and then it is all there was to
    read, or it is some bytes without a newline followed by one. *)
Lemma readline_shape bs :
  ((x0a ∉ bs) /\ readline bs = (bs, []))
  \/ exists pre rest,
       bs = pre ++ (x0a :: rest) /\ (x0a ∉ pre)
       /\ readline bs = (pre ++ [x0a], rest).
Proof.
  induction bs as [|b r IH].
  { left. split; [apply not_elem_of_nil | done]. }
  simpl. destruct (Byte.to_N b =? LF)%N eqn:Eb.
  - apply byte_is_lf in Eb as ->. right. exists [], r.
    split; [done|]. split; [apply not_elem_of_nil | done].
  - apply byte_is_not_lf in Eb.
    destruct IH as [[Hn ->]|(pre & rest & -> & Hn & ->)].
    + left. split; [|done]. apply not_elem_of_cons. by split.
    + right. exists (b :: pre), rest. split; [done|].
      split; [|done]. apply not_elem_of_cons. by split.
Qed.

Lemma strip_newline_no_lf s : LF ∉ s -> strip_newline s = s.
Proof.
  induction s as [|c t IH]; [done|].
  intros [Hc Ht]%not_elem_of_cons.
  destruct t as [|c' t'].
  - simpl. by destruct (N.eqb_spec c LF).
  - change (strip_newline (c :: c' :: t'))
      with (c :: strip_newline (c' :: t')).
    by rewrite IH.
Qed.

(** What [input] returns never has a newline in it, and its encoding is
    the line without the newline that ends it. *)
Lemma typed_one_line w S :
  typed w S ->
  (LF ∉ S)
  /\ exists bs,
       utf8_encode S = Some bs /\ (x0a ∉ bs)
       /\ (first_line w = bs \/ first_line w = bs ++ [x0a]).
Proof.
  intros [_ HS]. unfold first_line in *.
  destruct (readline_shape (stdin w))
    as [[Hn E]|(pre & rest & _ & Hn & E)]; rewrite E in *; cbn [fst] in *.
  - destruct (utf8_decode (stdin w)) as [s|] eqn:Hd; [|done].
    injection HS as <-. apply utf8_encode_decode in Hd.
    pose proof (utf8_encode_no_lf _ _ Hd Hn) as Hs.
    rewrite (strip_newline_no_lf _ Hs). split; [done|].
    exists (stdin w). split; [done|]. split; [done | by left].
  - destruct (utf8_decode (pre ++ [x0a])) as [s|] eqn:Hd; [|done].
    injection HS as <-. apply strip_newline_line in Hd.
    split; [by apply (utf8_encode_no_lf _ pre)|].
    exists pre. split; [done|]. split; [done | by right].
Qed.

(** Without a newline in the text, universal newlines mode is the
    replacement of every CR by LF. *)
Lemma universal_newlines_no_lf s :
  LF ∉ s ->
  universal_newlines s = map (fun c => if (c =? CR)%N then LF else c) s.
Proof.
  induction s as [|c t IH]; [done|].
  intros [Hc Ht]%not_elem_of_cons. specialize (IH Ht).
  cbn [universal_newlines map].
  destruct (c =? CR)%N; [|by rewrite IH].
  f_equal. destruct t as [|c' t']; [done|].
  apply not_elem_of_cons in Ht as [Hc' _].
  destruct (N.eqb_spec c' LF) as [->|_]; [done | exact IH].
Qed.
End OneLine.

(** X6: in every run that reaches its end, what is read back and shown is
    the goal typed with each carriage return replaced by a line feed, and
    nothing else changed: it has as many characters as the goal. *)
Theorem confirmation_is_the_goal_with_cr_as_lf w w' :
  main w = (Ok tt, w') ->
  exists tr S R h,
    log w' = log w ++ tr
    /\ In (EvInput prompt (Ok S)) tr
    /\ In (EvRead h (Ok R)) tr
    /\ In (EvPrint (confirmed ++ R)) tr
    /\ R = map (fun c => if (c =? CR)%N then LF else c) S
    /\ length R = length S.
Proof.
  intros (S & bs & HS & Hq & He & Hd & ->)%main_ok_inv.
  destruct (typed_one_line _ _ HS) as [Hn _].
  eexists _, S, (universal_newlines S), (next_file w). cbn [log].
  split; [reflexivity|].
  unfold calls_prompt, calls_persist, calls_saving, calls_verify.
  split; [simpl; tauto|]. split; [simpl; tauto|]. split; [simpl; tauto|].
  rewrite (universal_newlines_no_lf _ Hn). split; [done|].
  apply length_map.
Qed.

Lemma confirmation_is_the_goal_with_cr_as_lf_witness :
  main cr_world = (Ok tt, (main cr_world).2)
  /\ exists S R,
      In (EvInput prompt (Ok S)) (log (main cr_world).2)
      /\ In (EvPrint (confirmed ++ R)) (log (main cr_world).2)
      /\ length R = length S.
Proof.
  assert (main cr_world = (Ok tt, (main cr_world).2)) as Hm by (by vm_compute).
  split; [exact Hm|].
  destruct (confirmation_is_the_goal_with_cr_as_lf _ _ Hm)
    as (tr & S & R & h & Hl & Hi & _ & Hp & _ & Hlen).
  exists S, R. rewrite Hl.
  split; [apply in_or_app; by right|].
  split; [apply in_or_app; by right | exact Hlen].
Defined.

(** X7: in every run that reaches its end, [my_goal.txt] holds one line
    without its end: there is no newline byte anywhere in the file. *)
Theorem saved_file_has_no_newline w w' :
  main w = (Ok tt, w') ->
  exists bs, fs w' !! filename = Some bs /\ (x0a ∉ bs).
Proof.
  intros (S & bs & HS & Hq & He & Hd & ->)%main_ok_inv.
  destruct (typed_one_line _ _ HS) as (_ & bs' & He' & Hn & _).
  assert (bs' = bs) as -> by congruence.
  exists bs. split; [apply lookup_insert_eq | done].
Qed.

Lemma saved_file_has_no_newline_witness :
  main ship_world = (Ok tt, (main ship_world).2)
  /\ exists bs,
      fs (main ship_world).2 !! filename = Some bs /\ (x0a ∉ bs).
Proof.
  assert (main ship_world = (Ok tt, (main ship_world).2)) as Hm
    by (by vm_compute).
  split; [exact Hm|]. exact (saved_file_has_no_newline _ _ Hm).
Defined.



(** ** The order of the calls *)

(** Looking for an event in a trace that is written out, keeping what
    comes before it. *)
Ltac walk_all H pre fin :=
  destruct pre as [|? pre]; simpl in H;
  [ inversion H; subst; fin
  | first [ discriminate H | injection H as <- H; walk_all H pre fin ] ].

(** X9: the file is opened for reading only once the goal has been
    written and the file closed: whenever a run gets to the second
    [open], whether that call succeeds or not, the calls made before it
    are the prompt, a successful write between an [open] and its [close],
    and the notice. *)
Theorem file_is_reopened_after_the_write_is_closed w pre r post :
  log (main w).2 = log w ++ pre ++ EvOpen filename ModeR r :: post ->
  exists h S,
    pre = calls_prompt (Ok S) ++ calls_persist h S (Ok (length S))
          ++ calls_saving.
Proof.
  pose proof (main_run_intro w) as H.
  destruct (main w) as [r0 w']. simpl in *.
  destruct H; cbn [log]; intros Hl; apply app_inv_head in Hl;
    unfold calls_prompt, calls_persist, calls_saving, calls_verify in Hl;
    simpl in Hl; walk_all Hl pre ltac:(eexists _, _; reflexivity).
Qed.

Lemma file_is_reopened_after_the_write_is_closed_witness :
  log (main unreadable_world).2
  = log unreadable_world
    ++ (calls_prompt (Ok (py "Ship v2"))
        ++ calls_persist 0 (py "Ship v2") (Ok 7) ++ calls_saving)
    ++ EvOpen filename ModeR (Raise (OSError 13)) :: []
  /\ exists h S,
      calls_prompt (Ok (py "Ship v2"))
      ++ calls_persist 0 (py "Ship v2") (Ok 7) ++ calls_saving
      = calls_prompt (Ok S) ++ calls_persist h S (Ok (length S))
        ++ calls_saving.
Proof.
  assert (log (main unreadable_world).2
          = log unreadable_world
            ++ (calls_prompt (Ok (py "Ship v2"))
                ++ calls_persist 0 (py "Ship v2") (Ok 7) ++ calls_saving)
            ++ EvOpen filename ModeR (Raise (OSError 13)) :: []) as Hl
    by (by vm_compute).
  split; [exact Hl|].
  exact (file_is_reopened_after_the_write_is_closed _ _ _ _ Hl).
Defined.

(** ** Running again *)

(** X10: saving the same goal again changes nothing on disk: when a run
    reaches its end and a second run is given the same line and reaches
    its end too, the directory after the second run is the directory
    after the first. *)
Theorem saving_the_same_goal_again_changes_nothing w w1 w2 again :
  main w = (Ok tt, w1) ->
  first_line (set_stdin again w1) = first_line w ->
  main (set_stdin again w1) = (Ok tt, w2) ->
  fs w2 = fs w1.
Proof.
  intros (S & bs & HS & _ & He & _ & ->)%main_ok_inv Hline
         (S2 & bs2 & HS2 & _ & He2 & _ & ->)%main_ok_inv.
  apply typed_first_line in HS as (_ & s & Hs & ->).
  apply typed_first_line in HS2 as (_ & s2 & Hs2 & ->).
  rewrite Hline in Hs2. assert (s2 = s) as -> by congruence.
  assert (bs2 = bs) as -> by congruence.
  cbn [fs set_stdin]. apply insert_insert_eq.
Qed.

Lemma saving_the_same_goal_again_changes_nothing_witness :
  main ship_world = (Ok tt, (main ship_world).2)
  /\ first_line (set_stdin (stdin ship_world) (main ship_world).2)
     = first_line ship_world
  /\ main (set_stdin (stdin ship_world) (main ship_world).2)
     = (Ok tt, (main (set_stdin (stdin ship_world) (main ship_world).2)).2)
  /\ fs (main (set_stdin (stdin ship_world) (main ship_world).2)).2
     = fs (main ship_world).2.
Proof.
  assert (main ship_world = (Ok tt, (main ship_world).2)) as H1
    by (by vm_compute).
  assert (first_line (set_stdin (stdin ship_world) (main ship_world).2)
          = first_line ship_world) as Hl by reflexivity.
  assert (main (set_stdin (stdin ship_world) (main ship_world).2)
          = (Ok tt, (main (set_stdin (stdin ship_world) (main ship_world).2)).2))
    as H2 by (by vm_compute).
  split; [exact H1|]. split; [exact Hl|]. split; [exact H2|].
  exact (saving_the_same_goal_again_changes_nothing _ _ _ _ H1 Hl H2).
Defined.

(** ** What a failed run shows *)



(** ** What a run can raise *)

Section WholeInput.
Implicit Types (t : str) (pre rest : bytes).



End WholeInput.


